(** * The ES|QL language-service adapter of kbn-monaco

    A shallow embedding of [offsetToRowColumn], [wrapAsMonacoMessage],
    [ESQLAstAdapter.validate] and [ESQLAstAdapter.autocomplete] (the ES|QL
    AST adapter of the Monaco editor integration), with the properties of
    the specification proved or refuted on it, and further properties of
    the code after them.

    Conventions of the embedding:
    - a JavaScript string is the list of its UTF-16 code units, so that
      [.length] is [length] and [split(/\n/)] cuts at code unit 10;
    - a JavaScript number used as an offset, line or column is an integer
      of [Z] (negative offsets included, fractions and NaN left out); the
      arithmetic of the code is that of [Z] as long as the numbers stay
      below 2^53 in magnitude, which every offset within a buffer does;
    - [throw] and a rejected promise are the [Throw] branch of [Except];
    - an object whose fields the adapter does not know (a suggestion entry)
      is a finite map from property names to values;
    - a message is seen twice: as a value of the declared union
      [ESQLMessage | EditorError], and as the object it is at run time,
      which may hold properties of both sides ([MessageObject]). *)

From Stdlib Require Import ZArith Lia Ascii String.
From stdpp Require Import base list strings gmap.

Local Open Scope Z_scope.

(** ** JavaScript strings *)

Module JsString.

Definition code_unit := N.
Definition jsstring := list code_unit.

(** The line feed, the only unit matched by the pattern [/\n/]. *)
Definition LF : code_unit := 10%N.

(** An ASCII literal as a JavaScript string. *)
Definition js (s : string) : jsstring :=
  N_of_ascii <$> list_ascii_of_string s.

(** [s.length] *)
Definition len (s : jsstring) : Z := Z.of_nat (length s).

(** [s.split(/\n/)]: the pieces between line feeds, in order; the empty
    string gives one empty piece, a trailing line feed a last empty piece. *)
Fixpoint split (s : jsstring) : list jsstring :=
  match s with
  | [] => [[]]
  | c :: s' =>
      if N.eqb c LF then [] :: split s'
      else match split s' with
           | line :: lines => (c :: line) :: lines
           | [] => [[c]]
           end
  end.

(** [lines.join("\n")] *)
Fixpoint join (lines : list jsstring) : jsstring :=
  match lines with
  | [] => []
  | [line] => line
  | line :: rest => line ++ LF :: join rest
  end.

End JsString.
Import JsString.

(** ** Exceptions *)

Inductive Except (A : Type) : Type :=
| Return (a : A)
| Throw (msg : string).
Arguments Return {A} a.
Arguments Throw {A} msg.

Definition bind {A B} (m : Except A) (k : A → Except B) : Except B :=
  match m with
  | Return a => k a
  | Throw msg => Throw msg
  end.

Notation "'let*' x ':=' m 'in' k" := (bind m (λ x, k))
  (at level 10, x name, m at level 100, k at level 200, only parsing).

(** [xs.map(f)] for a callback that may throw: the elements are visited in
    order and the first exception aborts the whole call. *)
Fixpoint mapE {A B} (f : A → Except B) (xs : list A) : Except (list B) :=
  match xs with
  | [] => Return []
  | x :: xs' =>
      let* y := f x in
      let* ys := mapE f xs' in
      Return (y :: ys)
  end.

Definition is_Return {A} (m : Except A) : bool :=
  match m with Return _ => true | Throw _ => false end.

(** ** Offset translator *)

(** [monaco.Position]: the constructor stores its two arguments. *)
Record Position := mkPosition { lineNumber : Z; column : Z }.

(** The [for (const line of lines)] loop of [offsetToRowColumn], with its two
    local variables as arguments. *)
Fixpoint scanLines (lines : list jsstring) (remainingChars lineNumber : Z)
  : Except Position :=
  match lines with
  | [] => Throw "Algorithm failure"
  | line :: rest =>
      if len line >=? remainingChars
      then Return (mkPosition lineNumber (remainingChars + 1))
      else scanLines rest (remainingChars - (len line + 1)) (lineNumber + 1)
  end.

Definition offsetToRowColumn (expression : jsstring) (offset : Z)
  : Except Position :=
  let lines := split expression in
  scanLines lines offset 1.

(** The inverse direction as the specification words it: the lengths of the
    lines before the position's line, one for each of their line feeds, and
    the column less one. *)
Definition sumLengths (lines : list jsstring) : Z :=
  foldr (λ line acc, len line + acc) 0 lines.

Definition rowColumnToOffset (expression : jsstring) (p : Position) : Z :=
  let preceding := take (Z.to_nat (lineNumber p - 1)) (split expression) in
  sumLengths preceding + Z.of_nat (length preceding) + (column p - 1).

(** ** Message wrapper *)

(** [monaco.MarkerSeverity], an enum with the values 1, 2, 4 and 8. *)
Inductive MarkerSeverity := Hint | Info | Warning | Error.

Definition severityValue (s : MarkerSeverity) : Z :=
  match s with Hint => 1 | Info => 2 | Warning => 4 | Error => 8 end.

(** The literal type ['error' | 'warning'] of the first parameter. *)
Inductive MessageType := error | warning.

(** Modelled from the spec: the declarations of [ESQLMessage] and
    [EditorError] are imported from modules that are not part of the sources
    at hand. A raw parser message is a text with an optional [{min, max}]
    offset range; the wrapper reads [max] through [max || 0], so [max] may be
    missing. A marker has a message, a line/column range, a severity and,
    when the wrapper made it, the source identifier ["client"]. *)
Record ESQLLocation := mkLocation { min : Z; max : option Z }.

Record ESQLMessage := mkMessage {
  text : jsstring;
  location : option ESQLLocation
}.

Record EditorError := mkEditorError {
  message : jsstring;
  startColumn : Z;
  startLineNumber : Z;
  endColumn : Z;
  endLineNumber : Z;
  severity : MarkerSeverity;
  _source : option jsstring
}.

(** The union [ESQLMessage | EditorError]; the test ['severity' in e] tells
    its two sides apart. *)
Inductive DiagnosticMessage :=
| Raw (m : ESQLMessage)
| Marker (e : EditorError).

(** ['severity' in e] *)
Definition hasSeverity (e : DiagnosticMessage) : bool :=
  match e with Marker _ => true | Raw _ => false end.

(** [x || 0] on an optional number: a missing [x] and [0] both give [0]. *)
Definition orZero (x : option Z) : Z :=
  match x with
  | Some n => if n =? 0 then 0 else n
  | None => 0
  end.

Definition fallbackPosition : Position := {| column := 0; lineNumber := 0 |}.

(** The callback given to [messages.map] in [wrapAsMonacoMessage]. *)
Definition wrapMessage (type : MessageType) (code : jsstring)
    (e : DiagnosticMessage) : Except EditorError :=
  match e with
  | Marker e => Return e
  | Raw e =>
      let* startPosition :=
        match location e with
        | Some l => offsetToRowColumn code (min l)
        | None => Return fallbackPosition
        end in
      let* endPosition :=
        match location e with
        | Some l => offsetToRowColumn code (orZero (max l))
        | None => Return fallbackPosition
        end in
      Return {|
        message := text e;
        startColumn := column startPosition;
        startLineNumber := lineNumber startPosition;
        endColumn := column endPosition + 1;
        endLineNumber := lineNumber endPosition;
        severity := match type with error => Error | warning => Warning end;
        _source := Some (js "client")
      |}
  end.

Definition wrapAsMonacoMessage (type : MessageType) (code : jsstring)
    (messages : list DiagnosticMessage) : Except (list EditorError) :=
  mapE (wrapMessage type code) messages.

(** The object literal of the callback, as a function of the message and of
    the two positions; the statements below use it to name that marker. *)
Definition markerOf (type : MessageType) (e : ESQLMessage)
    (startPosition endPosition : Position) : EditorError :=
  {| message := text e;
     startColumn := column startPosition;
     startLineNumber := lineNumber startPosition;
     endColumn := column endPosition + 1;
     endLineNumber := lineNumber endPosition;
     severity := match type with error => Error | warning => Warning end;
     _source := Some (js "client") |}.

(** ** Adapter facade *)

Section ESQLAstAdapter.

(** The values a property of a suggestion entry may hold, [undefined] being
    one of them. *)
Context {Value : Type} (undefined : Value).

(** A suggestion entry: the adapter knows none of its fields. *)
Abbreviation SuggestionEntry := (gmap string Value).

(** The object [{ suggestions: ... }] that [autocomplete] returns. *)
Record CompletionList := mkCompletionList {
  suggestions : list SuggestionEntry
}.

(** The editor's types and the constructor arguments of the adapter. *)
Context {ITextModel CompletionContext AstFn ESQLCallbacks : Type}.
Variable getAstWorker : ITextModel → Except AstFn.
Variable callbacks : option ESQLCallbacks.

(** The imported [suggest] and [validateAst]. *)
Variable suggest :
  ITextModel → Position → CompletionContext → AstFn →
  option ESQLCallbacks → Except (list SuggestionEntry).
Variable validateAst :
  jsstring → AstFn → option ESQLCallbacks →
  Except (list DiagnosticMessage * list DiagnosticMessage).

(** [{...suggestion, range: undefined}] *)
Definition resetRange (suggestion : SuggestionEntry) : SuggestionEntry :=
  <["range" := undefined]> suggestion.

Definition autocomplete (model : ITextModel) (position : Position)
    (context : CompletionContext) : Except CompletionList :=
  let* getAstFn := getAstWorker model in
  let* suggestionEntries :=
    suggest model position context getAstFn callbacks in
  Return {| suggestions := resetRange <$> suggestionEntries |}.

(** [code] is a string by its type, so [code ?? model.getValue()] is
    [code]. *)
Definition validate (model : ITextModel) (code : jsstring)
    : Except (list EditorError * list EditorError) :=
  let* getAstFn := getAstWorker model in
  let* result := validateAst code getAstFn callbacks in
  let* monacoErrors := wrapAsMonacoMessage error code (fst result) in
  let* monacoWarnings := wrapAsMonacoMessage warning code (snd result) in
  Return (monacoErrors, monacoWarnings).

End ESQLAstAdapter.

(** ** Messages as objects *)

(** The wrapper tells a marker from a raw message by ['severity' in e] and
    nothing else, and an object may hold the properties of a marker and
    those of a raw message at once: both interfaces admit further
    properties. [MessageObject.t] is a message as the object it is: each
    property of the two interfaces is there or not, and has a value of its
    declared type when it is there. *)
Module MessageObject.

Record t := mk {
  text : option jsstring;
  location : option ESQLLocation;
  message : option jsstring;
  startColumn : option Z;
  startLineNumber : option Z;
  endColumn : option Z;
  endLineNumber : option Z;
  severity : option MarkerSeverity;
  _source : option jsstring
}.

(** ['severity' in e] *)
Definition hasSeverity (e : t) : bool :=
  match severity e with Some _ => true | None => false end.

(** The callback given to [messages.map], on objects. *)
Definition wrapMessage (type : MessageType) (code : jsstring) (e : t)
  : Except t :=
  if hasSeverity e then Return e
  else
    let* startPosition :=
      match location e with
      | Some l => offsetToRowColumn code (min l)
      | None => Return fallbackPosition
      end in
    let* endPosition :=
      match location e with
      | Some l => offsetToRowColumn code (orZero (max l))
      | None => Return fallbackPosition
      end in
    Return {|
      text := None;
      location := None;
      message := text e;
      startColumn := Some (column startPosition);
      startLineNumber := Some (lineNumber startPosition);
      endColumn := Some (column endPosition + 1);
      endLineNumber := Some (lineNumber endPosition);
      severity :=
        Some (match type with error => Error | warning => Warning end);
      _source := Some (js "client")
    |}.

Definition wrapAsMonacoMessage (type : MessageType) (code : jsstring)
    (messages : list t) : Except (list t) :=
  mapE (wrapMessage type code) messages.

(** The objects of the values of the declared types. *)
Definition ofRaw (r : ESQLMessage) : t :=
  match r with
  | mkMessage txt loc =>
      {| text := Some txt; location := loc; message := None;
         startColumn := None; startLineNumber := None;
         endColumn := None; endLineNumber := None;
         severity := None; _source := None |}
  end.

Definition ofMarker (m : EditorError) : t :=
  match m with
  | mkEditorError msg sc sl ec el sev src =>
      {| text := None; location := None; message := Some msg;
         startColumn := Some sc; startLineNumber := Some sl;
         endColumn := Some ec; endLineNumber := Some el;
         severity := Some sev; _source := src |}
  end.

Definition ofMessage (e : DiagnosticMessage) : t :=
  match e with Raw r => ofRaw r | Marker m => ofMarker m end.


End MessageObject.


(** ** Reference notions *)

(** The notions below are not code of the adapter: they are what its
    results are compared with. *)

(** A cursor moved over one code unit: a line feed puts it on the first
    column of the next line, any other unit one column further. *)
Definition advance (p : Position) (c : code_unit) : Position :=
  if N.eqb c LF
  then mkPosition (lineNumber p + 1) 1
  else mkPosition (lineNumber p) (column p + 1).

(** The cursor after the units of [s], one after the other. *)
Definition cursorAfter (s : jsstring) (p : Position) : Position :=
  foldl advance p s.

(** The number of line feeds of [s]. *)
Definition countLF (s : jsstring) : Z :=
  Z.of_nat (length (filter (λ c, c = LF) s)).

(** The order of positions in a text: an earlier line, or the same line and
    an earlier column. *)
Definition before (p q : Position) : Prop :=
  lineNumber p < lineNumber q ∨
  (lineNumber p = lineNumber q ∧ column p < column q).

(** The offsets of a message are translated: those of a raw message with a
    location do not exceed the length of the buffer. *)
Definition inBounds (code : jsstring) (e : DiagnosticMessage) : Prop :=
  match e with
  | Marker _ => True
  | Raw r =>
      match location r with
      | Some l => min l ≤ len code ∧ orZero (max l) ≤ len code
      | None => True
      end
  end.

(** ** Sample data *)

(** The buffer of the specification's examples: [A], line feed, [BB], line
    feed, [C]. *)
Definition sample : jsstring := js "A" ++ LF :: js "BB" ++ LF :: js "C".

(** * Properties *)

(** ** Lines of a buffer *)

Section Lines.

Lemma split_nonempty s : split s ≠ [].
Proof. destruct s as [|c s]; simpl; [done|]. by repeat case_match. Qed.

(** Splitting loses nothing: joining the lines with line feeds gives the
    buffer back. *)
Lemma join_split s : join (split s) = s.
Proof.
  induction s as [|c s IH]; [done|]. simpl.
  destruct (N.eqb_spec c LF) as [->|Hc].
  - pose proof (split_nonempty s) as Hne.
    simpl. destruct (split s) as [|l ls]; [done|]. by rewrite IH.
  - pose proof (split_nonempty s) as Hne.
    destruct (split s) as [|l ls]; [done|].
    rewrite <- IH. simpl. by destruct ls.
Qed.

(** No line keeps a line feed. *)
Lemma split_no_LF s : Forall (λ line, LF ∉ line) (split s).
Proof.
  induction s as [|c s IH]; simpl.
  - repeat constructor. apply not_elem_of_nil.
  - destruct (N.eqb_spec c LF) as [->|Hc].
    + constructor; [apply not_elem_of_nil | done].
    + pose proof (split_nonempty s).
      destruct (split s) as [|l ls]; [done|]. inversion IH; subst.
      constructor; [|done]. rewrite elem_of_cons.
      intros [?|?]; [congruence|done].
Qed.

Lemma sumLengths_nonneg lines : 0 ≤ sumLengths lines.
Proof. induction lines; simpl; unfold len in *; lia. Qed.

(** The lines and their line feeds add up to the length of the buffer. *)
Lemma sumLengths_split s :
  sumLengths (split s) + Z.of_nat (length (split s)) = len s + 1.
Proof.
  induction s as [|c s IH]; [done|]. simpl.
  destruct (N.eqb c LF).
  - simpl. unfold len in *. simpl. lia.
  - pose proof (split_nonempty s).
    destruct (split s) as [|l ls]; [done|].
    simpl in *. unfold len in *. simpl. lia.
Qed.

End Lines.

(** ** The scanning loop *)

Section Scan.

(** The loop throws exactly when the offset lies beyond all lines and the
    line feeds between them. *)
Lemma scanLines_throw lines rem ln :
  lines ≠ [] →
  is_Return (scanLines lines rem ln) = false ↔
  rem > sumLengths lines + Z.of_nat (length lines) - 1.
Proof.
  revert rem ln. induction lines as [|l ls IH]; [done|]. intros rem ln _.
  simpl. pose proof (sumLengths_nonneg ls).
  destruct (Z.geb_spec (len l) rem) as [Hge|Hlt]; simpl.
  - split; [done|lia].
  - destruct ls as [|l' ls'].
    + simpl. split; [lia|done].
    + rewrite IH by done. simpl in *. lia.
Qed.

(** When the loop returns, it has skipped [k] whole lines, each with its
    line feed, and the rest of the offset fits in line [k]. *)
Lemma scanLines_return lines rem ln p :
  scanLines lines rem ln = Return p →
  ∃ (k : nat) line,
    lines !! k = Some line ∧
    lineNumber p = ln + Z.of_nat k ∧
    column p - 1 = rem - (sumLengths (take k lines) + Z.of_nat k) ∧
    column p - 1 ≤ len line.
Proof.
  revert rem ln. induction lines as [|l ls IH]; [done|]. intros rem ln.
  simpl. destruct (Z.geb_spec (len l) rem) as [Hge|Hlt].
  - intros [= <-]. exists 0%nat, l. simpl. repeat split; lia.
  - intros (k & line & Hk & Hln & Hcol & Hfit)%IH.
    exists (S k), line. simpl. repeat split; [done|lia..].
Qed.

Lemma scanLines_msg lines rem ln msg :
  scanLines lines rem ln = Throw msg → msg = "Algorithm failure"%string.
Proof.
  revert rem ln. induction lines as [|l ls IH]; intros rem ln; simpl.
  - by intros [= <-].
  - case_match; [done|]. apply IH.
Qed.

End Scan.

(** ** Offset translator *)

Section OffsetTranslator.

(** A non-negative offset never yields a column before the first. *)
Lemma scanLines_column lines rem ln p :
  0 ≤ rem → scanLines lines rem ln = Return p → 1 ≤ column p.
Proof.
  revert rem ln. induction lines as [|l ls IH]; [done|]. intros rem ln Hrem.
  simpl. destruct (Z.geb_spec (len l) rem) as [Hge|Hlt].
  - intros [= <-]. simpl. lia.
  - apply IH. lia.
Qed.

Lemma offsetToRowColumn_Return b o :
  is_Return (offsetToRowColumn b o) = true ↔ o ≤ len b.
Proof.
  pose proof (scanLines_throw (split b) o 1 (split_nonempty b)) as Hthrow.
  rewrite sumLengths_split in Hthrow. unfold offsetToRowColumn.
  destruct (is_Return _).
  - split; [intros _|done]. destruct (Z.le_gt_cases o (len b)); [done|].
    assert (true = false) by (apply Hthrow; lia). done.
  - split; [done|]. intros Hle. assert (o > len b + 1 - 1) by by apply Hthrow.
    lia.
Qed.

Lemma offsetToRowColumn_Throw b o msg :
  offsetToRowColumn b o = Throw msg →
  msg = "Algorithm failure"%string ∧ len b < o.
Proof.
  intros Hthrow. split; [by eapply scanLines_msg|].
  destruct (Z.lt_ge_cases (len b) o) as [|Hle]; [done|].
  apply offsetToRowColumn_Return in Hle. by rewrite Hthrow in Hle.
Qed.

Lemma offsetToRowColumn_zero b :
  offsetToRowColumn b 0 = Return (mkPosition 1 1).
Proof.
  unfold offsetToRowColumn. pose proof (split_nonempty b).
  destruct (split b) as [|l ls]; [done|]. simpl.
  destruct (Z.geb_spec (len l) 0); [done|]. unfold len in *. lia.
Qed.

End OffsetTranslator.

(** C1. For every buffer [b] and offset [o] with [0 ≤ o ≤ length b],
    [offsetToRowColumn b o] returns a position with a line and a column
    counted from 1, lying on a line of the buffer, and mapping that position
    back (lengths of the preceding lines, one per line feed, column less one)
    gives [o] again. *)
Theorem offsetToRowColumn_round_trip (b : jsstring) (o : Z) :
  0 ≤ o ≤ len b →
  ∃ p line,
    offsetToRowColumn b o = Return p ∧
    1 ≤ lineNumber p ∧ 1 ≤ column p ∧
    split b !! Z.to_nat (lineNumber p - 1) = Some line ∧
    column p - 1 ≤ len line ∧
    rowColumnToOffset b p = o.
Proof.
  intros [Hlo Hhi]. apply offsetToRowColumn_Return in Hhi.
  destruct (offsetToRowColumn b o) as [p|] eqn:Hp; [clear Hhi|done].
  unfold offsetToRowColumn in Hp.
  pose proof (scanLines_column _ _ _ _ Hlo Hp) as Hcol.
  apply scanLines_return in Hp as (k & line & Hk & Hln & Hoff & Hfit).
  exists p, line. unfold rowColumnToOffset.
  replace (Z.to_nat (lineNumber p - 1)) with k by lia.
  repeat split; [lia|done..|].
  rewrite length_take, Nat.min_l; [lia|].
  apply lookup_lt_Some in Hk. lia.
Qed.

Lemma offsetToRowColumn_round_trip_witness :
  0 ≤ 4 ≤ len sample ∧
  ∃ p line,
    offsetToRowColumn sample 4 = Return p ∧
    1 ≤ lineNumber p ∧ 1 ≤ column p ∧
    split sample !! Z.to_nat (lineNumber p - 1) = Some line ∧
    column p - 1 ≤ len line ∧
    rowColumnToOffset sample p = 4.
Proof.
  assert (0 ≤ 4 ≤ len sample) as H by (vm_compute; split; discriminate).
  split; [exact H | exact (offsetToRowColumn_round_trip sample 4 H)].
Defined.

(** C2. [offsetToRowColumn b o] throws exactly when [o] exceeds the length
    of [b], and returns a position exactly when [o ≤ length b], which
    covers every offset with [0 ≤ o ≤ length b]. *)
Theorem offsetToRowColumn_throws_iff (b : jsstring) (o : Z) :
  (offsetToRowColumn b o = Throw "Algorithm failure" ↔ len b < o) ∧
  ((∃ p, offsetToRowColumn b o = Return p) ↔ o ≤ len b).
Proof.
  pose proof (offsetToRowColumn_Return b o) as Hret.
  destruct (offsetToRowColumn b o) as [p|msg] eqn:Hp; simpl in Hret.
  - assert (o ≤ len b) by by apply Hret.
    split; split; [done|lia|done|by eauto].
  - destruct (offsetToRowColumn_Throw _ _ _ Hp) as [-> Hlt].
    split; split; [done|done|by intros [p [=]]|lia].
Qed.

(** C3, as the code has it. On the buffer [A\nBB\nC], of length 6, offset 3
    is line 2, column 2, and offset 6, the end of the buffer, is line 3,
    column 2; line 3, column 1 is offset 5, the [C]. *)
Theorem offsetToRowColumn_sample :
  len sample = 6 ∧
  offsetToRowColumn sample 3 = Return (mkPosition 2 2) ∧
  offsetToRowColumn sample 6 = Return (mkPosition 3 2) ∧
  offsetToRowColumn sample 5 = Return (mkPosition 3 1).
Proof. by vm_compute. Qed.

(** C3 as stated fails: offset 6 is not translated to line 3, column 1. *)
Lemma offsetToRowColumn_sample_counterexample :
  ¬ (offsetToRowColumn sample 3 = Return (mkPosition 2 2) ∧
     offsetToRowColumn sample 6 = Return (mkPosition 3 1)).
Proof. intros [_ H]. vm_compute in H. discriminate H. Qed.

(** ** Message wrapper *)

Section MessageWrapper.

Context {A B : Type} (f : A → Except B).

(** [map] returns a list exactly when the callback returns on every
    element, and then holds the results in the order of the elements. *)
Lemma mapE_Return xs ys :
  mapE f xs = Return ys ↔ Forall2 (λ x y, f x = Return y) xs ys.
Proof.
  revert ys. induction xs as [|x xs IH]; intros ys; simpl.
  - split; [intros [= <-]; constructor | by inversion 1].
  - split.
    + destruct (f x) as [y|] eqn:Hy; [simpl|done].
      destruct (mapE f xs) as [ys'|]; [simpl|done].
      intros [= <-]. constructor; [done|]. by apply IH.
    + inversion 1 as [|? y ? ys' Hy Hys]; subst. rewrite Hy. simpl.
      apply IH in Hys. by rewrite Hys.
Qed.

(** The exception of [map] is that of the first element on which the
    callback throws. *)
Lemma mapE_Throw xs msg :
  mapE f xs = Throw msg ↔
  ∃ i x, xs !! i = Some x ∧ f x = Throw msg ∧
         ∀ j x', (j < i)%nat → xs !! j = Some x' → is_Return (f x') = true.
Proof.
  induction xs as [|x xs IH]; simpl.
  - split; [done|]. by intros (i & x & ? & _).
  - destruct (f x) as [y|msg'] eqn:Hy; simpl.
    + destruct (mapE f xs) as [ys|msg'] eqn:Hys; simpl.
      * split; [done|]. intros (i & x' & Hi & Hx' & Hbefore).
        destruct i as [|i]; simpl in Hi; [congruence|].
        assert (Return ys = Throw msg) as [=]. apply IH.
        exists i, x'. repeat split; [done..|].
        intros j x'' Hj Hx''. apply (Hbefore (S j)); [lia|done].
      * split.
        -- intros [= ->]. destruct IH as [IH _].
           destruct (IH eq_refl) as (i & x' & Hi & Hx' & Hbefore).
           exists (S i), x'. repeat split; [done..|].
           intros [|j] x'' Hj Hx''; simpl in Hx''.
           ++ injection Hx'' as <-. by rewrite Hy.
           ++ apply (Hbefore j); [lia|done].
        -- intros (i & x' & Hi & Hx' & Hbefore).
           destruct i as [|i]; simpl in Hi; [congruence|].
           apply IH. exists i, x'. repeat split; [done..|].
           intros j x'' Hj Hx''. apply (Hbefore (S j)); [lia|done].
    + split.
      * intros [= ->]. exists 0%nat, x. repeat split; [done..|]. lia.
      * intros (i & x' & Hi & Hx' & Hbefore).
        destruct i as [|i]; simpl in Hi; [congruence|].
        specialize (Hbefore 0%nat x). rewrite Hy in Hbefore.
        discriminate Hbefore; [lia|done].
Qed.

End MessageWrapper.

Lemma hasSeverity_Marker e : hasSeverity e = true ↔ ∃ m, e = Marker m.
Proof. destruct e; split; try done; [by intros [? [=]] | by eauto]. Qed.

Lemma wrapAsMonacoMessage_markers type code (markers : list EditorError) :
  wrapAsMonacoMessage type code (Marker <$> markers) = Return markers.
Proof.
  unfold wrapAsMonacoMessage.
  induction markers as [|m ms IH]; [done|]. csimpl. by rewrite IH.
Qed.

(** The callback on a raw message with a location: it returns when both
    offsets are translated, and throws as the first failing translation
    does, the start being translated first. *)
Lemma wrapMessage_located type code e l :
  location e = Some l →
  wrapMessage type code (Raw e) =
    match offsetToRowColumn code (min l),
          offsetToRowColumn code (orZero (max l)) with
    | Return startPosition, Return endPosition =>
        Return (markerOf type e startPosition endPosition)
    | Return _, Throw msg => Throw msg
    | Throw msg, _ => Throw msg
    end.
Proof.
  intros Hl. unfold wrapMessage. rewrite Hl.
  destruct (offsetToRowColumn code (min l)); [simpl|done].
  by destruct (offsetToRowColumn code (orZero (max l))).
Qed.

(** C4. A message that carries a severity is returned as it is, whatever
    the severity tag and the buffer; a list of such messages is returned as
    it is; hence wrapping the result of a wrapping again changes nothing,
    a failed wrapping staying failed. *)
Theorem wrapAsMonacoMessage_idempotent
    (type : MessageType) (code : jsstring) :
  (∀ m, wrapMessage type code (Marker m) = Return m) ∧
  (∀ markers,
     wrapAsMonacoMessage type code (Marker <$> markers) = Return markers) ∧
  (∀ messages,
     (let* wrapped := wrapAsMonacoMessage type code messages in
      wrapAsMonacoMessage type code (Marker <$> wrapped))
     = wrapAsMonacoMessage type code messages).
Proof.
  split; [done|]. split; [apply wrapAsMonacoMessage_markers|].
  intros messages.
  destruct (wrapAsMonacoMessage type code messages) as [wrapped|]; [|done].
  apply wrapAsMonacoMessage_markers.
Qed.

(** C5, as the code has it. A raw message without a location is wrapped,
    for every severity tag and buffer, into a marker that starts at line 0,
    column 0 and ends at line 0, column 1: both positions are the fallback
    [{line: 0, column: 0}] and the end column is one more than the column
    of the end position. *)
Theorem wrapMessage_no_location
    (type : MessageType) (code : jsstring) (e : ESQLMessage) :
  location e = None →
  wrapMessage type code (Raw e)
    = Return (markerOf type e fallbackPosition fallbackPosition) ∧
  ∃ m, wrapMessage type code (Raw e) = Return m ∧
       startLineNumber m = 0 ∧ startColumn m = 0 ∧
       endLineNumber m = 0 ∧ endColumn m = 1.
Proof.
  intros Hl. unfold wrapMessage. rewrite Hl. simpl.
  split; [done|]. by eexists.
Qed.

Lemma wrapMessage_no_location_witness :
  ∃ m, wrapMessage warning sample (Raw (mkMessage (js "bad") None)) = Return m ∧
       startLineNumber m = 0 ∧ startColumn m = 0 ∧
       endLineNumber m = 0 ∧ endColumn m = 1.
Proof.
  exact (proj2 (wrapMessage_no_location warning sample
                  (mkMessage (js "bad") None) eq_refl)).
Defined.

(** C5 as stated fails: the marker of a message without a location does not
    end at column 0. *)
Lemma wrapMessage_no_location_counterexample :
  ¬ ∃ m, wrapMessage error sample (Raw (mkMessage (js "bad") None)) = Return m ∧
         startLineNumber m = 0 ∧ startColumn m = 0 ∧
         endLineNumber m = 0 ∧ endColumn m = 0.
Proof. intros (m & [= <-] & _ & _ & _ & H). discriminate H. Qed.

Lemma orZero_Some n : orZero (Some n) = n.
Proof. simpl. destruct (Z.eqb_spec n 0); congruence. Qed.

(** C6. For a raw message whose location has a [max] within the buffer,
    [max] is translated, and the marker ends at the translated column plus
    one while it starts at the translated column of [min] as it is; the
    marker exists whenever [min] is translated too, and the wrapping throws
    otherwise. *)
Theorem wrapMessage_endColumn
    (type : MessageType) (code : jsstring) (e : ESQLMessage)
    (l : ESQLLocation) (maxOffset : Z) :
  location e = Some l →
  max l = Some maxOffset →
  0 ≤ maxOffset ≤ len code →
  ∃ endPosition,
    offsetToRowColumn code maxOffset = Return endPosition ∧
    match offsetToRowColumn code (min l) with
    | Return startPosition =>
        ∃ m, wrapMessage type code (Raw e) = Return m ∧
             endColumn m = column endPosition + 1 ∧
             startColumn m = column startPosition ∧
             endLineNumber m = lineNumber endPosition ∧
             startLineNumber m = lineNumber startPosition
    | Throw msg => wrapMessage type code (Raw e) = Throw msg
    end.
Proof.
  intros Hl Hmax [_ Hin]. rewrite (wrapMessage_located _ _ _ _ Hl), Hmax.
  rewrite orZero_Some. apply offsetToRowColumn_Return in Hin.
  destruct (offsetToRowColumn code maxOffset) as [endPosition|]; [|done].
  exists endPosition. split; [done|].
  destruct (offsetToRowColumn code (min l)); [|done]. by eexists.
Qed.

Lemma wrapMessage_endColumn_witness :
  ∃ m, wrapMessage error sample
         (Raw (mkMessage (js "bad") (Some (mkLocation 2 (Some 3))))) = Return m ∧
       endColumn m = 2 + 1 ∧ startColumn m = 1.
Proof.
  destruct (wrapMessage_endColumn error sample
              (mkMessage (js "bad") (Some (mkLocation 2 (Some 3))))
              (mkLocation 2 (Some 3)) 3 eq_refl eq_refl)
    as (endPosition & Hend & H).
  - vm_compute. split; discriminate.
  - injection Hend as <-. cbv in H.
    destruct H as (m & Hm & HendColumn & HstartColumn & _).
    exists m. by repeat split.
Defined.

(** C7. On the buffer [A\nBB\nC] the raw message with text [bad] and
    location [{min: 2, max: 3}] is wrapped into the marker with message
    [bad] that starts at line 2, column 1 and ends at line 2, column 3. *)
Theorem wrapAsMonacoMessage_sample (type : MessageType) :
  ∃ m,
    wrapAsMonacoMessage type sample
      [Raw (mkMessage (js "bad") (Some (mkLocation 2 (Some 3))))]
    = Return [m] ∧
    startLineNumber m = 2 ∧ startColumn m = 1 ∧
    endLineNumber m = 2 ∧ endColumn m = 3 ∧
    message m = js "bad".
Proof. eexists. by vm_compute. Qed.

(** C10. For a raw message whose location has no [max], or the [max] 0, the
    end of the marker is that of offset 0, which is line 1, column 1 in
    every buffer: the marker ends at line 1, column 2, wherever [min] puts
    its start; the wrapping throws only when [min] is not translated. *)
Theorem wrapMessage_max_falsy
    (type : MessageType) (code : jsstring) (e : ESQLMessage)
    (l : ESQLLocation) :
  location e = Some l →
  max l = None ∨ max l = Some 0 →
  offsetToRowColumn code 0 = Return (mkPosition 1 1) ∧
  match offsetToRowColumn code (min l) with
  | Return startPosition =>
      ∃ m, wrapMessage type code (Raw e) = Return m ∧
           endLineNumber m = 1 ∧ endColumn m = 2 ∧
           startLineNumber m = lineNumber startPosition ∧
           startColumn m = column startPosition
  | Throw msg => wrapMessage type code (Raw e) = Throw msg
  end.
Proof.
  intros Hl Hmax. split; [apply offsetToRowColumn_zero|].
  rewrite (wrapMessage_located _ _ _ _ Hl).
  assert (orZero (max l) = 0) as -> by by destruct Hmax as [-> | ->].
  rewrite offsetToRowColumn_zero.
  destruct (offsetToRowColumn code (min l)); [|done]. by eexists.
Qed.

(** The start may well lie after such an end: with [min] 5 on [A\nBB\nC]
    the marker starts at line 3, column 1 and ends at line 1, column 2. *)
Lemma wrapMessage_max_falsy_witness :
  ∃ m, wrapMessage warning sample
         (Raw (mkMessage (js "bad") (Some (mkLocation 5 None)))) = Return m ∧
       endLineNumber m = 1 ∧ endColumn m = 2 ∧
       startLineNumber m = 3 ∧ startColumn m = 1.
Proof.
  destruct (wrapMessage_max_falsy warning sample
              (mkMessage (js "bad") (Some (mkLocation 5 None)))
              (mkLocation 5 None) eq_refl (or_introl eq_refl)) as [_ H].
  cbv in H. exact H.
Defined.

(** ** Adapter facade *)

Section Autocomplete.

Context {Value : Type} (undefined : Value).
Context {ITextModel CompletionContext AstFn ESQLCallbacks : Type}.
Variable getAstWorker : ITextModel → Except AstFn.
Variable callbacks : option ESQLCallbacks.
Variable suggest :
  ITextModel → Position → CompletionContext → AstFn →
  option ESQLCallbacks → Except (list (gmap string Value)).

Lemma resetRange_range (suggestion : gmap string Value) :
  resetRange undefined suggestion !! "range" = Some undefined.
Proof. apply lookup_insert_eq. Qed.

Lemma resetRange_other (suggestion : gmap string Value) (k : string) :
  k ≠ "range" → resetRange undefined suggestion !! k = suggestion !! k.
Proof. intros Hk. by apply lookup_insert_ne. Qed.

(** C8. When the worker is resolved and the suggestion module returns a
    list of entries, [autocomplete] returns as many entries, and the entry
    at each index is the module's entry at that index with its [range] set
    to [undefined] and every other property as it was. *)
Theorem autocomplete_resets_range
    (model : ITextModel) (position : Position) (context : CompletionContext)
    (getAstFn : AstFn) (suggestionEntries : list (gmap string Value)) :
  getAstWorker model = Return getAstFn →
  suggest model position context getAstFn callbacks
    = Return suggestionEntries →
  ∃ result,
    autocomplete undefined getAstWorker callbacks suggest
      model position context = Return result ∧
    length (suggestions result) = length suggestionEntries ∧
    ∀ (i : nat) (suggestion : gmap string Value),
      suggestionEntries !! i = Some suggestion →
      ∃ entry : gmap string Value,
        suggestions result !! i = Some entry ∧
        entry !! "range" = Some undefined ∧
        ∀ k : string, k ≠ "range" → entry !! k = suggestion !! k.
Proof.
  intros Hworker Hsuggest. unfold autocomplete.
  rewrite Hworker. simpl. rewrite Hsuggest. simpl.
  eexists. split; [done|]. simpl. split; [by rewrite length_fmap|].
  intros i suggestion Hi. exists (resetRange undefined suggestion).
  split; [by rewrite list_lookup_fmap, Hi|].
  split; [apply resetRange_range|apply resetRange_other].
Qed.

End Autocomplete.

(** Two entries of a suggestion module, the first with a range, and what
    [autocomplete] makes of them; a missing value stands for [undefined]. *)
Lemma autocomplete_resets_range_witness :
  ∃ result,
    autocomplete (Value := option Z) None
      (λ _ : unit, Return tt) (None : option unit)
      (λ _ _ (_ : unit) _ _,
         Return [ {[ "label" := Some 1; "range" := Some 7 ]};
                  {[ "label" := Some 2 ]} ])
      tt (mkPosition 1 1) tt = Return result ∧
    length (suggestions result) = 2%nat.
Proof.
  destruct (autocomplete_resets_range (Value := option Z) None
              (λ _ : unit, Return tt) (None : option unit)
              (λ _ _ (_ : unit) _ _,
                 Return [ {[ "label" := Some 1; "range" := Some 7 ]};
                          {[ "label" := Some 2 ]} ])
              tt (mkPosition 1 1) tt tt _ eq_refl eq_refl)
    as (result & Hresult & Hlength & _).
  exists result. split; [exact Hresult | exact Hlength].
Defined.


(** * Further properties *)

(** ** The translator and the text *)

Section Cursor.

Lemma cursorAfter_app s t p :
  cursorAfter (s ++ t) p = cursorAfter t (cursorAfter s p).
Proof. apply foldl_app. Qed.

Lemma cursorAfter_lineNumber s p :
  lineNumber (cursorAfter s p) = lineNumber p + countLF s.
Proof.
  revert p. unfold countLF, cursorAfter, jsstring.
  induction s as [|c s IH]; intros p; [simpl; lia|].
  rewrite filter_cons. cbn [foldl]. rewrite IH. unfold advance.
  destruct (N.eqb_spec c LF) as [->|Hc].
  - rewrite decide_True by done. simpl. lia.
  - rewrite decide_False by done. simpl. lia.
Qed.

Lemma cursorAfter_column s p : 1 ≤ column p → 1 ≤ column (cursorAfter s p).
Proof.
  revert p. induction s as [|c s IH]; intros p Hp; simpl; [done|].
  apply IH. unfold advance. case_match; simpl; lia.
Qed.

(** The loop on the lines of [b], started inside a first line of which
    [pre] is already read, goes where the cursor goes. *)
Lemma scanLines_cursor b (n : nat) pre ln :
  (n ≤ length b)%nat →
  ∃ l ls,
    split b = l :: ls ∧
    scanLines ((pre ++ l) :: ls) (len pre + Z.of_nat n) ln
      = Return (cursorAfter (take n b) (mkPosition ln (len pre + 1))).
Proof.
  revert n pre ln. induction b as [|c b IH]; intros n pre ln Hn.
  - exists [], []. split; [done|]. simpl in Hn.
    replace n with 0%nat by lia. simpl. rewrite Z.add_0_r.
    by rewrite app_nil_r, (proj2 (Z.geb_le _ _)) by lia.
  - pose proof (split_nonempty b) as Hne. simpl.
    destruct (split b) as [|l ls] eqn:Hsplit; [done|clear Hne].
    destruct n as [|n].
    + assert (∀ l', scanLines ((pre ++ l') :: ls) (len pre + Z.of_nat 0) ln
                    = Return (mkPosition ln (len pre + 1))) as Hzero.
      { intros l'. simpl. rewrite Z.add_0_r.
        rewrite (proj2 (Z.geb_le _ _)); [done|].
        unfold len. rewrite length_app. lia. }
      destruct (N.eqb c LF); eexists _, _; (split; [done|]).
      * simpl. rewrite Z.add_0_r.
        by rewrite app_nil_r, (proj2 (Z.geb_le _ _)) by lia.
      * apply Hzero.
    + simpl in Hn. unfold cursorAfter. cbn [take foldl].
      unfold advance at 2. cbn [lineNumber column].
      destruct (N.eqb c LF).
      * exists [], (l :: ls). split; [done|].
        rewrite app_nil_r.
        destruct (Z.geb_spec (len pre) (len pre + Z.of_nat (S n))); [lia|].
        destruct (IH n [] (ln + 1) ltac:(lia)) as (l' & ls' & [= <- <-] & Hs).
        change (len [] + 1) with 1 in Hs. change ([] ++ l) with l in Hs.
        unfold cursorAfter in Hs. rewrite <- Hs. f_equal.
        unfold len. simpl length. lia.
      * exists (c :: l), ls. split; [done|].
        destruct (IH n (pre ++ [c]) ln ltac:(lia))
          as (l' & ls' & [= <- <-] & Hs).
        rewrite <- (assoc_L (++)) in Hs. simpl in Hs.
        replace (len (pre ++ [c]) + Z.of_nat n)
          with (len pre + Z.of_nat (S n)) in Hs
          by (unfold len; rewrite length_app; simpl; lia).
        replace (len (pre ++ [c]) + 1) with (len pre + 1 + 1) in Hs
          by (unfold len; rewrite length_app; simpl; lia).
        exact Hs.
Qed.

Lemma translate_cursor b o :
  0 ≤ o ≤ len b →
  offsetToRowColumn b o
    = Return (cursorAfter (take (Z.to_nat o) b) (mkPosition 1 1)).
Proof.
  intros [Hlo Hhi]. unfold offsetToRowColumn.
  destruct (scanLines_cursor b (Z.to_nat o) [] 1) as (l & ls & -> & Hs);
    [unfold len in Hhi; lia|].
  change (len [] + 1) with 1 in Hs. change ([] ++ l) with l in Hs.
  rewrite <- Hs. f_equal. change (len []) with 0. lia.
Qed.

(** A cursor is on the first column exactly when it has not moved from
    there or has just passed a line feed. *)
Lemma cursorAfter_first_column s p :
  1 ≤ column p →
  column (cursorAfter s p) = 1 ↔ (s = [] ∧ column p = 1) ∨ last s = Some LF.
Proof.
  intros Hp. destruct s as [|c s _] using rev_ind.
  - simpl. split; [auto|]. by intros [[_ ?]|?].
  - rewrite cursorAfter_app, last_snoc. simpl.
    pose proof (cursorAfter_column s p Hp). unfold advance.
    destruct (N.eqb_spec c LF) as [->|Hc]; simpl.
    + split; auto.
    + split; [lia|]. intros [[Hnil _]|[= ?]]; [|done].
      by destruct s.
Qed.

(** Every unit moves the cursor forward. *)
Lemma before_advance p c : before p (advance p c).
Proof. unfold before, advance. case_match; simpl; lia. Qed.

Lemma before_trans p q r : before p q → before q r → before p r.
Proof. unfold before. lia. Qed.

Lemma cursorAfter_before s p : s ≠ [] → before p (cursorAfter s p).
Proof.
  revert p. induction s as [|c s IH]; intros p Hs; [done|]. simpl.
  destruct s as [|c' s]; [apply before_advance|].
  eapply before_trans; [apply before_advance|]. by apply IH.
Qed.

End Cursor.

(** ** The units of the lines *)

Section Units.

Lemma sumLengths_app l1 l2 :
  sumLengths (l1 ++ l2) = sumLengths l1 + sumLengths l2.
Proof. induction l1 as [|l l1 IH]; simpl; [done|]. rewrite IH. lia. Qed.

Lemma join_cons line line' rest :
  join (line :: line' :: rest) = line ++ LF :: join (line' :: rest).
Proof. done. Qed.

(** In the joined lines, line [k] starts after the lines before it and
    their line feeds, and is followed by a line feed unless it is the
    last. *)
Lemma join_lookup lines (k : nat) line (j : nat) :
  lines !! k = Some line →
  (j ≤ length line)%nat →
  (j < length line ∨ S k < length lines)%nat →
  join lines !! Z.to_nat (sumLengths (take k lines) + Z.of_nat k + Z.of_nat j)
    = if decide (j < length line)%nat then line !! j else Some LF.
Proof.
  unfold jsstring in *. revert k.
  induction lines as [|l lines IH]; intros k Hk Hj Hlast; [done|].
  destruct k as [|k]; simpl in Hk.
  - injection Hk as ->. simpl take. simpl sumLengths.
    replace (Z.to_nat (0 + Z.of_nat 0 + Z.of_nat j)) with j by lia.
    destruct lines as [|l' lines].
    + simpl in *. rewrite decide_True by lia. done.
    + rewrite join_cons. case_decide.
      * by rewrite lookup_app_l.
      * rewrite lookup_app_r by lia.
        by replace (j - length line)%nat with 0%nat by lia.
  - destruct lines as [|l' lines]; [done|]. rewrite join_cons.
    pose proof (sumLengths_nonneg (take k (l' :: lines))).
    simpl take. simpl sumLengths. unfold len at 1.
    rewrite lookup_app_r by lia.
    replace (Z.to_nat (Z.of_nat (length l)
                         + sumLengths (take k (l' :: lines))
                       + Z.of_nat (S k) + Z.of_nat j) - length l)%nat
      with (S (Z.to_nat (sumLengths (take k (l' :: lines))
                         + Z.of_nat k + Z.of_nat j)))
      by lia.
    simpl lookup. apply IH; [done..|]. simpl in *. lia.
Qed.

End Units.


(** X1. For an offset within the buffer the translator returns the position
    of a cursor that starts at line 1, column 1 and is moved over the units
    before the offset one by one, a line feed taking it to the first column
    of the next line and any other unit one column further. *)
Theorem offsetToRowColumn_cursor (b : jsstring) (o : Z) :
  0 ≤ o ≤ len b →
  offsetToRowColumn b o
    = Return (cursorAfter (take (Z.to_nat o) b) (mkPosition 1 1)).
Proof. apply translate_cursor. Qed.

Lemma offsetToRowColumn_cursor_witness :
  offsetToRowColumn sample 4
    = Return (cursorAfter (take (Z.to_nat 4) sample) (mkPosition 1 1)).
Proof.
  apply (offsetToRowColumn_cursor sample 4). vm_compute. split; discriminate.
Defined.

(** X2. For an offset within the buffer, the line of the returned position
    is one more than the number of line feeds before the offset, and its
    column is 1 exactly when the offset is 0 or the unit just before it is a
    line feed. *)
Theorem offsetToRowColumn_line_start (b : jsstring) (o : Z) :
  0 ≤ o ≤ len b →
  ∃ p,
    offsetToRowColumn b o = Return p ∧
    lineNumber p = 1 + countLF (take (Z.to_nat o) b) ∧
    (column p = 1 ↔ o = 0 ∨ b !! Z.to_nat (o - 1) = Some LF).
Proof.
  intros Ho. rewrite translate_cursor by done. eexists. split; [done|].
  split; [apply cursorAfter_lineNumber|].
  rewrite cursorAfter_first_column by done. simpl.
  unfold len, jsstring in *. destruct (decide (o = 0)) as [->|Hpos].
  - split; auto.
  - assert (last (take (Z.to_nat o) b) = b !! Z.to_nat (o - 1)) as ->.
    { rewrite last_lookup, length_take_le by lia.
      rewrite lookup_take_lt by lia. f_equal. lia. }
    split; [intros [[Hnil _]|?]; [|by auto] | intros [?|?]; [done|by auto]].
    apply (f_equal length) in Hnil. rewrite length_take_le in Hnil by lia.
    simpl in Hnil. lia.
Qed.

Lemma offsetToRowColumn_line_start_witness :
  ∃ p,
    offsetToRowColumn sample 2 = Return p ∧
    lineNumber p = 1 + countLF (take (Z.to_nat 2) sample) ∧
    (column p = 1 ↔ 2 = 0 ∨ sample !! Z.to_nat (2 - 1) = Some LF).
Proof.
  apply (offsetToRowColumn_line_start sample 2).
  vm_compute. split; discriminate.
Defined.

(** X3. For an offset before the end of the buffer, the unit of the buffer
    at the offset is the unit of the returned line at the returned column,
    or, when the column is one past the end of that line, the line feed that
    ends it. *)
Theorem offsetToRowColumn_unit (b : jsstring) (o : Z) :
  0 ≤ o < len b →
  ∃ p line,
    offsetToRowColumn b o = Return p ∧
    split b !! Z.to_nat (lineNumber p - 1) = Some line ∧
    b !! Z.to_nat o =
      if decide (column p - 1 < len line)
      then line !! Z.to_nat (column p - 1)
      else Some LF.
Proof.
  intros [Hlo Hhi].
  assert (o ≤ len b) as Hret by lia. apply offsetToRowColumn_Return in Hret.
  destruct (offsetToRowColumn b o) as [p|] eqn:Hp; [clear Hret|done].
  unfold offsetToRowColumn in Hp.
  pose proof (scanLines_column _ _ _ _ Hlo Hp) as Hcol.
  apply scanLines_return in Hp as (k & line & Hk & Hln & Hoff & Hfit).
  exists p, line.
  replace (Z.to_nat (lineNumber p - 1)) with k by lia.
  split; [done|]. split; [done|].
  pose proof (sumLengths_split b) as Htotal.
  pose proof (take_drop_middle _ _ _ Hk) as Hmiddle.
  assert (Z.to_nat (column p - 1) < length line ∨
          S k < length (split b))%nat as Hlast.
  { destruct (decide (S k < length (split b))%nat) as [|Hend]; [by auto|].
    left. rewrite <- Hmiddle in Htotal at 1.
    rewrite drop_ge, sumLengths_app in Htotal by lia. simpl in Htotal.
    apply lookup_lt_Some in Hk. unfold len in *. lia. }
  rewrite <- (join_split b) at 1.
  replace o
    with (sumLengths (take k (split b)) + Z.of_nat k
          + Z.of_nat (Z.to_nat (column p - 1))) by lia.
  rewrite (join_lookup _ _ _ _ Hk) by (unfold len in *; lia || done).
  unfold len. by repeat case_decide; try lia.
Qed.

Lemma offsetToRowColumn_unit_witness :
  ∃ p line,
    offsetToRowColumn sample 4 = Return p ∧
    split sample !! Z.to_nat (lineNumber p - 1) = Some line ∧
    sample !! Z.to_nat 4 =
      if decide (column p - 1 < len line)
      then line !! Z.to_nat (column p - 1)
      else Some LF.
Proof.
  apply (offsetToRowColumn_unit sample 4). vm_compute. split; [discriminate|done].
Defined.

Lemma translate_monotone b o1 o2 :
  0 ≤ o1 → o1 < o2 → o2 ≤ len b →
  ∃ p1 p2,
    offsetToRowColumn b o1 = Return p1 ∧
    offsetToRowColumn b o2 = Return p2 ∧
    before p1 p2.
Proof.
  intros H1 H12 H2. rewrite !translate_cursor by lia.
  eexists _, _. split; [done|]. split; [done|].
  unfold len, jsstring in *.
  rewrite <- (take_drop (Z.to_nat o1) (take (Z.to_nat o2) b)).
  rewrite take_take, Nat.min_l, cursorAfter_app by lia.
  apply cursorAfter_before. intros Hnil. apply (f_equal length) in Hnil.
  rewrite length_drop, length_take_le in Hnil by lia. simpl in Hnil. lia.
Qed.

(** X4. The translator keeps the order of the offsets within the buffer:
    the position of a smaller offset comes strictly before that of a larger
    one, on an earlier line or on the same line at an earlier column. So
    different offsets have different positions. *)
Theorem offsetToRowColumn_strictly_monotone (b : jsstring) (o1 o2 : Z) :
  0 ≤ o1 → o1 < o2 → o2 ≤ len b →
  ∃ p1 p2,
    offsetToRowColumn b o1 = Return p1 ∧
    offsetToRowColumn b o2 = Return p2 ∧
    before p1 p2.
Proof. apply translate_monotone. Qed.

Lemma offsetToRowColumn_strictly_monotone_witness :
  ∃ p1 p2,
    offsetToRowColumn sample 1 = Return p1 ∧
    offsetToRowColumn sample 2 = Return p2 ∧
    before p1 p2.
Proof.
  apply (offsetToRowColumn_strictly_monotone sample 1 2); [lia|lia|].
  vm_compute. discriminate.
Defined.

(** X5. An offset that is not positive is not refused: in every buffer an
    offset [o] with [-2^53 < o ≤ 0] is translated to line 1 and the column
    [o + 1], which is below 1 for a negative offset. (Further down the sum
    [o + 1] of the code is no longer that of the integers.) *)
Theorem offsetToRowColumn_not_positive (b : jsstring) (o : Z) :
  - 2 ^ 53 < o →
  o ≤ 0 →
  offsetToRowColumn b o = Return (mkPosition 1 (o + 1)).
Proof.
  intros _ Ho. unfold offsetToRowColumn. pose proof (split_nonempty b).
  destruct (split b) as [|l ls]; [done|]. simpl.
  destruct (Z.geb_spec (len l) o); [done|]. unfold len in *. lia.
Qed.

Lemma offsetToRowColumn_not_positive_witness :
  offsetToRowColumn sample (-3) = Return (mkPosition 1 (-3 + 1)).
Proof.
  apply (offsetToRowColumn_not_positive sample (-3)); [reflexivity|lia].
Defined.

(** ** The wrapper as a whole *)

Lemma translate_round_trip b o :
  0 ≤ o ≤ len b →
  ∃ p, offsetToRowColumn b o = Return p ∧ rowColumnToOffset b p = o.
Proof.
  intros [Hlo Hhi]. apply offsetToRowColumn_Return in Hhi.
  destruct (offsetToRowColumn b o) as [p|] eqn:Hp; [clear Hhi|done].
  exists p. split; [done|]. unfold offsetToRowColumn in Hp.
  apply scanLines_return in Hp as (k & line & Hk & Hln & Hoff & _).
  unfold rowColumnToOffset.
  replace (Z.to_nat (lineNumber p - 1)) with k by lia.
  apply lookup_lt_Some in Hk. rewrite length_take_le by lia. lia.
Qed.

Section WrapperLists.

Context {A B : Type} (f : A → Except B).

Lemma mapE_app xs ys :
  mapE f (xs ++ ys) =
    let* xs' := mapE f xs in
    let* ys' := mapE f ys in
    Return (xs' ++ ys').
Proof.
  induction xs as [|x xs IH]; simpl.
  - by destruct (mapE f ys).
  - destruct (f x); [simpl|done]. rewrite IH.
    destruct (mapE f xs); [simpl|done]. by destruct (mapE f ys).
Qed.

Lemma mapE_is_Return xs :
  is_Return (mapE f xs) = true ↔ Forall (λ x, is_Return (f x) = true) xs.
Proof.
  induction xs as [|x xs IH]; simpl; [by split|].
  rewrite Forall_cons, <- IH.
  destruct (f x); simpl; [|by split; [|intros []]].
  destruct (mapE f xs); simpl; by split; [|intros []].
Qed.

End WrapperLists.

Lemma wrapMessage_is_Return type code e :
  is_Return (wrapMessage type code e) = true ↔ inBounds code e.
Proof.
  destruct e as [r|m]; [|by split]. simpl.
  destruct (location r) as [l|]; [|by split].
  rewrite <- !offsetToRowColumn_Return.
  destruct (offsetToRowColumn code (min l)); simpl; [|by split; [|intros []]].
  destruct (offsetToRowColumn code (orZero (max l))); simpl;
    by split; [|intros []].
Qed.

Lemma wrapMessage_msg type code e msg :
  wrapMessage type code e = Throw msg → msg = "Algorithm failure"%string.
Proof.
  destruct e as [r|m]; [simpl|done].
  destruct (location r) as [l|]; [|done].
  destruct (offsetToRowColumn code (min l)) eqn:Hstart; simpl.
  - destruct (offsetToRowColumn code (orZero (max l))) eqn:Hend; [done|].
    intros [= <-]. by apply offsetToRowColumn_Throw in Hend as [-> _].
  - intros [= <-]. by apply offsetToRowColumn_Throw in Hstart as [-> _].
Qed.

Lemma wrapAsMonacoMessage_msg type code messages msg :
  wrapAsMonacoMessage type code messages = Throw msg →
  msg = "Algorithm failure"%string.
Proof.
  intros (i & e & _ & Hthrow & _)%mapE_Throw. by eapply wrapMessage_msg.
Qed.

Lemma wrapAsMonacoMessage_is_Return type code messages :
  is_Return (wrapAsMonacoMessage type code messages) = true ↔
  Forall (inBounds code) messages.
Proof.
  unfold wrapAsMonacoMessage. rewrite mapE_is_Return.
  apply Forall_proper; [|done]. intros e. apply wrapMessage_is_Return.
Qed.

(** What a returned list holds at the index of a raw message and at the
    index of a marker. *)
Lemma wrapAsMonacoMessage_lookup type code messages wrapped :
  wrapAsMonacoMessage type code messages = Return wrapped →
  length wrapped = length messages ∧
  (∀ i r, messages !! i = Some (Raw r) →
     ∃ m, wrapped !! i = Some m ∧ message m = text r ∧
          severity m = match type with error => Error | warning => Warning end ∧
          _source m = Some (js "client")) ∧
  (∀ i m, messages !! i = Some (Marker m) → wrapped !! i = Some m).
Proof.
  intros Hwrap%mapE_Return. split; [symmetry; by eapply Forall2_length|].
  split.
  - intros i r Hi.
    destruct (Forall2_lookup_l _ _ _ _ _ Hwrap Hi) as (m & Hm & Hr).
    exists m. split; [done|]. simpl in Hr.
    destruct (location r) as [l|].
    + destruct (offsetToRowColumn code (min l)); [simpl in Hr|done].
      destruct (offsetToRowColumn code (orZero (max l))); [|done].
      by injection Hr as <-.
    + by injection Hr as <-.
  - intros i m Hi.
    destruct (Forall2_lookup_l _ _ _ _ _ Hwrap Hi) as (m' & Hm & Hr).
    by injection Hr as ->.
Qed.

(** X6. The wrapper returns a list exactly when the offsets of every raw
    message with a location lie within the buffer ([min] and [max || 0] at
    most its length); one message beyond the buffer makes the whole call
    throw [Algorithm failure], whatever the other messages are. *)
Theorem wrapAsMonacoMessage_all_or_nothing
    (type : MessageType) (code : jsstring)
    (messages : list DiagnosticMessage) :
  ((∃ wrapped, wrapAsMonacoMessage type code messages = Return wrapped) ↔
   Forall (inBounds code) messages) ∧
  (wrapAsMonacoMessage type code messages = Throw "Algorithm failure" ↔
   ¬ Forall (inBounds code) messages).
Proof.
  pose proof (wrapAsMonacoMessage_is_Return type code messages) as Hret.
  destruct (wrapAsMonacoMessage type code messages) as [wrapped|msg] eqn:Hw.
  - simpl in Hret. assert (Forall (inBounds code) messages) by by apply Hret.
    split; split; [done|by eauto|done|done].
  - simpl in Hret. apply wrapAsMonacoMessage_msg in Hw as ->.
    assert (¬ Forall (inBounds code) messages) by (intros ?%Hret; done).
    split; split; [by intros [? [=]]|done|done|done].
Qed.

(** X7. Wrapping two lists one after the other is wrapping the first, then
    the second, and appending the markers; if a message of the first list
    makes the wrapper throw, that is the outcome. *)
Theorem wrapAsMonacoMessage_app
    (type : MessageType) (code : jsstring)
    (messages1 messages2 : list DiagnosticMessage) :
  wrapAsMonacoMessage type code (messages1 ++ messages2) =
    let* wrapped1 := wrapAsMonacoMessage type code messages1 in
    let* wrapped2 := wrapAsMonacoMessage type code messages2 in
    Return (wrapped1 ++ wrapped2).
Proof. apply mapE_app. Qed.

(** X8. A raw message whose offsets satisfy [0 ≤ min ≤ max ≤ length] is
    wrapped into a marker whose start comes strictly before its end: it ends
    on a later line, or on the line on which it starts at a later column. *)
Theorem wrapMessage_forward_range
    (type : MessageType) (code : jsstring) (e : ESQLMessage)
    (l : ESQLLocation) (maxOffset : Z) :
  location e = Some l →
  max l = Some maxOffset →
  0 ≤ min l → min l ≤ maxOffset → maxOffset ≤ len code →
  ∃ m, wrapMessage type code (Raw e) = Return m ∧
       before (mkPosition (startLineNumber m) (startColumn m))
              (mkPosition (endLineNumber m) (endColumn m)).
Proof.
  intros Hl Hmax Hmin Hle Hin.
  rewrite (wrapMessage_located _ _ _ _ Hl), Hmax, orZero_Some.
  destruct (decide (min l = maxOffset)) as [<-|Hne].
  - destruct (translate_round_trip code (min l)) as (p & -> & _); [lia|].
    eexists. split; [done|]. unfold before. simpl. lia.
  - destruct (translate_monotone code (min l) maxOffset)
      as (p1 & p2 & -> & -> & Hbefore); [lia..|].
    eexists. split; [done|]. unfold before in *. simpl. lia.
Qed.

Lemma wrapMessage_forward_range_witness :
  ∃ m, wrapMessage error sample
         (Raw (mkMessage (js "bad") (Some (mkLocation 2 (Some 5))))) = Return m ∧
       before (mkPosition (startLineNumber m) (startColumn m))
              (mkPosition (endLineNumber m) (endColumn m)).
Proof.
  apply (wrapMessage_forward_range error sample
           (mkMessage (js "bad") (Some (mkLocation 2 (Some 5))))
           (mkLocation 2 (Some 5)) 5 eq_refl eq_refl);
    [simpl; lia | simpl; lia | vm_compute; discriminate].
Defined.

(** X9. A raw message whose two offsets lie within the buffer is wrapped
    into a marker from which the offsets are read back: its start position
    maps back to [min], and its end position, the column taken one back,
    maps back to [max]. *)
Theorem wrapMessage_offsets_round_trip
    (type : MessageType) (code : jsstring) (e : ESQLMessage)
    (l : ESQLLocation) (maxOffset : Z) :
  location e = Some l →
  max l = Some maxOffset →
  0 ≤ min l ≤ len code →
  0 ≤ maxOffset ≤ len code →
  ∃ m, wrapMessage type code (Raw e) = Return m ∧
       rowColumnToOffset code
         (mkPosition (startLineNumber m) (startColumn m)) = min l ∧
       rowColumnToOffset code
         (mkPosition (endLineNumber m) (endColumn m - 1)) = maxOffset.
Proof.
  intros Hl Hmax Hmin Hin.
  rewrite (wrapMessage_located _ _ _ _ Hl), Hmax, orZero_Some.
  destruct (translate_round_trip code (min l) Hmin) as ([ln1 c1] & -> & H1).
  destruct (translate_round_trip code maxOffset Hin) as ([ln2 c2] & -> & H2).
  eexists. split; [done|]. simpl. split; [done|].
  by replace (c2 + 1 - 1) with c2 by lia.
Qed.

Lemma wrapMessage_offsets_round_trip_witness :
  ∃ m, wrapMessage error sample
         (Raw (mkMessage (js "bad") (Some (mkLocation 2 (Some 5))))) = Return m ∧
       rowColumnToOffset sample
         (mkPosition (startLineNumber m) (startColumn m)) = 2 ∧
       rowColumnToOffset sample
         (mkPosition (endLineNumber m) (endColumn m - 1)) = 5.
Proof.
  apply (wrapMessage_offsets_round_trip error sample
           (mkMessage (js "bad") (Some (mkLocation 2 (Some 5))))
           (mkLocation 2 (Some 5)) 5 eq_refl eq_refl);
    vm_compute; split; discriminate.
Defined.

(** ** Validation *)

Section Validate.

Context {ITextModel AstFn ESQLCallbacks : Type}.
Variable getAstWorker : ITextModel → Except AstFn.
Variable callbacks : option ESQLCallbacks.
Variable validateAst :
  jsstring → AstFn → option ESQLCallbacks →
  Except (list DiagnosticMessage * list DiagnosticMessage).

(** X10. When the worker is resolved, the validation module returns its
    errors and warnings, and every offset lies within the code, [validate]
    returns one marker for each error and one for each warning, in order:
    a raw error becomes a marker of severity [Error] with its text, a raw
    warning one of severity [Warning], and a message that is a marker
    already is handed on with the severity it has. *)
Theorem validate_markers
    (model : ITextModel) (code : jsstring) (getAstFn : AstFn)
    (errors warnings : list DiagnosticMessage) :
  getAstWorker model = Return getAstFn →
  validateAst code getAstFn callbacks = Return (errors, warnings) →
  Forall (inBounds code) errors →
  Forall (inBounds code) warnings →
  ∃ monacoErrors monacoWarnings,
    validate getAstWorker callbacks validateAst model code
      = Return (monacoErrors, monacoWarnings) ∧
    length monacoErrors = length errors ∧
    length monacoWarnings = length warnings ∧
    (∀ i r, errors !! i = Some (Raw r) →
       ∃ m, monacoErrors !! i = Some m ∧
            message m = text r ∧ severity m = Error) ∧
    (∀ i r, warnings !! i = Some (Raw r) →
       ∃ m, monacoWarnings !! i = Some m ∧
            message m = text r ∧ severity m = Warning) ∧
    (∀ i m, errors !! i = Some (Marker m) → monacoErrors !! i = Some m) ∧
    (∀ i m, warnings !! i = Some (Marker m) → monacoWarnings !! i = Some m).
Proof.
  intros Hworker Hvalidate He Hw. unfold validate.
  rewrite Hworker. simpl. rewrite Hvalidate. simpl.
  apply (wrapAsMonacoMessage_is_Return error) in He.
  apply (wrapAsMonacoMessage_is_Return warning) in Hw.
  destruct (wrapAsMonacoMessage error code errors) as [es|] eqn:Hes;
    [clear He|done].
  destruct (wrapAsMonacoMessage warning code warnings) as [ws|] eqn:Hws;
    [clear Hw|done].
  apply wrapAsMonacoMessage_lookup in Hes as (Hlen1 & Hraw1 & Hmarker1).
  apply wrapAsMonacoMessage_lookup in Hws as (Hlen2 & Hraw2 & Hmarker2).
  exists es, ws. simpl. repeat split; try done.
  - intros i r Hi. destruct (Hraw1 i r Hi) as (m & ? & ? & ? & _). eauto.
  - intros i r Hi. destruct (Hraw2 i r Hi) as (m & ? & ? & ? & _). eauto.
Qed.

(** X11. When the worker is resolved and the validation module returns,
    [validate] throws [Algorithm failure] exactly when an error or a warning
    has an offset beyond the code: a single such message leaves the caller
    with no marker at all, not even those of the other list. *)
Theorem validate_throws
    (model : ITextModel) (code : jsstring) (getAstFn : AstFn)
    (errors warnings : list DiagnosticMessage) :
  getAstWorker model = Return getAstFn →
  validateAst code getAstFn callbacks = Return (errors, warnings) →
  validate getAstWorker callbacks validateAst model code
    = Throw "Algorithm failure" ↔
  ¬ Forall (inBounds code) (errors ++ warnings).
Proof.
  intros Hworker Hvalidate. unfold validate.
  rewrite Hworker. simpl. rewrite Hvalidate. simpl. rewrite Forall_app.
  pose proof (wrapAsMonacoMessage_is_Return error code errors) as He.
  pose proof (wrapAsMonacoMessage_is_Return warning code warnings) as Hw.
  destruct (wrapAsMonacoMessage error code errors) as [es|msg] eqn:Hes;
    simpl in *.
  - destruct (wrapAsMonacoMessage warning code warnings) as [ws|msg] eqn:Hws;
      simpl in *.
    + split; [done|]. intros []. split; [by apply He|by apply Hw].
    + apply wrapAsMonacoMessage_msg in Hws as ->.
      split; [|done]. intros _ [_ ?%Hw]. done.
  - apply wrapAsMonacoMessage_msg in Hes as ->.
    split; [|done]. intros _ [?%He _]. done.
Qed.

End Validate.

Lemma validate_markers_witness :
  ∃ monacoErrors monacoWarnings,
    validate (λ _ : unit, Return tt) (None : option unit)
      (λ _ _ _,
         Return ([Raw (mkMessage (js "bad") (Some (mkLocation 2 (Some 3))))],
                 [Raw (mkMessage (js "odd") None)]))
      tt sample
    = Return (monacoErrors, monacoWarnings) ∧
    length monacoErrors = 1%nat ∧ length monacoWarnings = 1%nat.
Proof.
  destruct (validate_markers (λ _ : unit, Return tt) (None : option unit)
              (λ _ _ _,
                 Return ([Raw (mkMessage (js "bad")
                                (Some (mkLocation 2 (Some 3))))],
                         [Raw (mkMessage (js "odd") None)]))
              tt sample tt _ _ eq_refl eq_refl)
    as (es & ws & Hvalidate & Hes & Hws & _).
  - repeat constructor; vm_compute; discriminate.
  - repeat constructor.
  - exists es, ws. split; [exact Hvalidate|]. split; [exact Hes|exact Hws].
Defined.

Lemma validate_throws_witness :
  validate (λ _ : unit, Return tt) (None : option unit)
    (λ _ _ _,
       Return ([Raw (mkMessage (js "bad") (Some (mkLocation 2 (Some 3))))],
               [Raw (mkMessage (js "far") (Some (mkLocation 9 (Some 9))))]))
    tt sample
  = Throw "Algorithm failure" ↔
  ¬ Forall (inBounds sample)
      ([Raw (mkMessage (js "bad") (Some (mkLocation 2 (Some 3))))] ++
       [Raw (mkMessage (js "far") (Some (mkLocation 9 (Some 9))))]).
Proof.
  exact (validate_throws (λ _ : unit, Return tt) (None : option unit)
           (λ _ _ _,
              Return ([Raw (mkMessage (js "bad")
                             (Some (mkLocation 2 (Some 3))))],
                      [Raw (mkMessage (js "far")
                             (Some (mkLocation 9 (Some 9))))]))
           tt sample tt _ _ eq_refl eq_refl).
Defined.

(** ** Suggestions *)

Section Suggestions.

Context {Value : Type} (undefined : Value).
Context {ITextModel CompletionContext AstFn ESQLCallbacks : Type}.
Variable getAstWorker : ITextModel → Except AstFn.
Variable callbacks : option ESQLCallbacks.

Lemma resetRange_delete (s1 s2 : gmap string Value) :
  resetRange undefined s1 = resetRange undefined s2 ↔
  delete "range" s1 = delete "range" s2.
Proof.
  unfold resetRange. split; intros Heq.
  - by rewrite <- (delete_insert_eq s1 "range" undefined), Heq,
      delete_insert_eq.
  - by rewrite <- (insert_delete_eq s1), Heq, insert_delete_eq.
Qed.

(** X12. The ranges that the suggestion module supplies do not reach the
    caller: two modules whose entries agree on every property other than
    [range] lead [autocomplete] to the same result. *)
Theorem autocomplete_forgets_range
    (suggest1 suggest2 :
       ITextModel → Position → CompletionContext → AstFn →
       option ESQLCallbacks → Except (list (gmap string Value)))
    (model : ITextModel) (position : Position) (context : CompletionContext)
    (getAstFn : AstFn) (entries1 entries2 : list (gmap string Value)) :
  getAstWorker model = Return getAstFn →
  suggest1 model position context getAstFn callbacks = Return entries1 →
  suggest2 model position context getAstFn callbacks = Return entries2 →
  Forall2 (λ s1 s2, delete "range" s1 = delete "range" s2)
    entries1 entries2 →
  autocomplete undefined getAstWorker callbacks suggest1
    model position context
  = autocomplete undefined getAstWorker callbacks suggest2
      model position context.
Proof.
  intros Hworker H1 H2 Hagree. unfold autocomplete.
  rewrite Hworker. simpl. rewrite H1, H2. simpl. do 2 f_equal.
  clear H1 H2. induction Hagree as [|s1 s2 l1 l2 Hs _ IH]; [done|].
  rewrite !fmap_cons, IH. f_equal. by apply resetRange_delete.
Qed.

End Suggestions.

Lemma autocomplete_forgets_range_witness :
  autocomplete (Value := option Z) None
    (λ _ : unit, Return tt) (None : option unit)
    (λ _ _ (_ : unit) _ _,
       Return [ {[ "label" := Some 1; "range" := Some 7 ]} ])
    tt (mkPosition 1 1) tt
  = autocomplete (Value := option Z) None
      (λ _ : unit, Return tt) (None : option unit)
      (λ _ _ (_ : unit) _ _, Return [ {[ "label" := Some 1 ]} ])
      tt (mkPosition 1 1) tt.
Proof.
  apply (autocomplete_forgets_range (Value := option Z) None
           (λ _ : unit, Return tt) (None : option unit)
           (λ _ _ (_ : unit) _ _,
              Return [ {[ "label" := Some 1; "range" := Some 7 ]} ])
           (λ _ _ (_ : unit) _ _, Return [ {[ "label" := Some 1 ]} ])
           tt (mkPosition 1 1) tt tt _ _ eq_refl eq_refl eq_refl).
  repeat constructor.
Defined.

(** ** Further edge behaviour *)

(** X13. The position of an offset depends on the text before it only: two
    buffers with the same first [o] units give offset [o] the same
    position. *)
Theorem offsetToRowColumn_prefix (b1 b2 : jsstring) (o : Z) :
  0 ≤ o → o ≤ len b1 → o ≤ len b2 →
  take (Z.to_nat o) b1 = take (Z.to_nat o) b2 →
  offsetToRowColumn b1 o = offsetToRowColumn b2 o ∧
  is_Return (offsetToRowColumn b1 o) = true.
Proof.
  intros Ho H1 H2 Hprefix. rewrite !translate_cursor by done.
  by rewrite Hprefix.
Qed.

Lemma offsetToRowColumn_prefix_witness :
  offsetToRowColumn sample 3 = offsetToRowColumn (sample ++ js "DD") 3 ∧
  is_Return (offsetToRowColumn sample 3) = true.
Proof.
  apply (offsetToRowColumn_prefix sample (sample ++ js "DD") 3);
    [lia | vm_compute; discriminate | vm_compute; discriminate | reflexivity].
Defined.

(** X14. A raw message whose [max] is missing or 0 while its [min] is at
    least 1 (and within the buffer) is wrapped into a marker that is not a
    forward range: its end is line 1, column 2, and its start is not before
    that end. *)
Theorem wrapMessage_max_falsy_backward
    (type : MessageType) (code : jsstring) (e : ESQLMessage)
    (l : ESQLLocation) :
  location e = Some l →
  max l = None ∨ max l = Some 0 →
  1 ≤ min l ≤ len code →
  ∃ m, wrapMessage type code (Raw e) = Return m ∧
       endLineNumber m = 1 ∧ endColumn m = 2 ∧
       ¬ before (mkPosition (startLineNumber m) (startColumn m))
                (mkPosition (endLineNumber m) (endColumn m)).
Proof.
  intros Hl Hmax [Hlo Hhi]. rewrite (wrapMessage_located _ _ _ _ Hl).
  assert (orZero (max l) = 0) as -> by by destruct Hmax as [-> | ->].
  destruct (translate_monotone code 0 (min l))
    as (p0 & p1 & Hp0 & -> & Hbefore); [lia..|].
  rewrite offsetToRowColumn_zero in Hp0 |- *. injection Hp0 as <-.
  eexists. split; [done|]. simpl. split; [done|]. split; [done|].
  unfold before in *. simpl in *. lia.
Qed.

Lemma wrapMessage_max_falsy_backward_witness :
  ∃ m, wrapMessage error sample
         (Raw (mkMessage (js "bad") (Some (mkLocation 5 None)))) = Return m ∧
       endLineNumber m = 1 ∧ endColumn m = 2 ∧
       ¬ before (mkPosition (startLineNumber m) (startColumn m))
                (mkPosition (endLineNumber m) (endColumn m)).
Proof.
  apply (wrapMessage_max_falsy_backward error sample
           (mkMessage (js "bad") (Some (mkLocation 5 None)))
           (mkLocation 5 None) eq_refl (or_introl eq_refl)).
  vm_compute. split; discriminate.
Defined.


(** ** Messages as objects *)

Section MessageObjects.

(** On the objects of the declared types the wrapper on objects does what
    the wrapper on the union does. *)
Lemma wrapMessage_ofMessage type code (e : DiagnosticMessage) :
  MessageObject.wrapMessage type code (MessageObject.ofMessage e) =
    match wrapMessage type code e with
    | Return m => Return (MessageObject.ofMarker m)
    | Throw msg => Throw msg
    end.
Proof.
  destruct e as [[txt loc]|[msg sc sl ec el sev src]]; [|done].
  unfold MessageObject.wrapMessage. simpl.
  destruct loc as [l|]; [|done].
  destruct (offsetToRowColumn code (min l)); [simpl|done].
  by destruct (offsetToRowColumn code (orZero (max l))).
Qed.

Lemma wrapAsMonacoMessage_ofMessage type code messages :
  MessageObject.wrapAsMonacoMessage type code
    (MessageObject.ofMessage <$> messages) =
    match wrapAsMonacoMessage type code messages with
    | Return wrapped => Return (MessageObject.ofMarker <$> wrapped)
    | Throw msg => Throw msg
    end.
Proof.
  unfold MessageObject.wrapAsMonacoMessage, wrapAsMonacoMessage.
  induction messages as [|e messages IH]; [done|].
  rewrite fmap_cons. cbn [mapE]. rewrite wrapMessage_ofMessage, IH.
  destruct (wrapMessage type code e); [simpl|done].
  by destruct (mapE (wrapMessage type code) messages).
Qed.

End MessageObjects.


